(** * Verification of the portfolio accounting core of PnLTracker.tsx

    Shallow embedding of the second [PnLTracker] component of
    src/src/components/PnLTracker.tsx: the positions effect (fold of the
    transaction list into per-symbol positions), the daily-PnL effect
    (snapshot history) and [addTransaction].

    JavaScript numbers are modelled as exact rationals [Q]; the division
    guards of the source ([x > 0 ? a / x : 0]) are written out as in the
    source.  A JS object used as a map ([positionMap], [tokenPrices]) is an
    association list in key insertion order. *)

From Stdlib Require Import QArith Qfield String Ascii List Bool Lia.
Import ListNotations.
Open Scope Q_scope.

(** ** Numeric helpers *)

(** [x > 0] on JS numbers. *)
Definition Qgt0b (x : Q) : bool := negb (Qle_bool x 0).

(** [x === 0] on JS numbers. *)
Definition Qis0b (x : Q) : bool := Qeq_bool x 0.

(** [String.prototype.toUpperCase] restricted to ASCII letters. *)
Definition ascii_upper (c : ascii) : ascii :=
  let n := nat_of_ascii c in
  if Nat.leb 97 n && Nat.leb n 122 then ascii_of_nat (Nat.sub n 32) else c.

Fixpoint toUpperCase (s : string) : string :=
  match s with
  | EmptyString => EmptyString
  | String c s' => String (ascii_upper c) (toUpperCase s')
  end.

(** ** Data model (interfaces Transaction, TokenPosition, TokenPrices, DailyPnL) *)

Inductive TxType := buy | sell.

Record Transaction := mkTransaction {
  id : string;
  tokenSymbol : string;
  type : TxType;
  amount : Q;
  pricePerToken : Q;
  timestamp : Z;
  totalValue : Q
}.

Record TokenPosition := mkTokenPosition {
  symbol : string;
  totalAmount : Q;
  avgCostBasis : Q;
  currentPrice : Q;
  totalInvested : Q;
  currentValue : Q;
  pnl : Q;
  pnlPercentage : Q;
  transactions : list Transaction
}.

(** [TokenPrices]: a JS object from symbol to price. *)
Definition TokenPrices := list (string * Q).

Fixpoint assoc {A} (k : string) (m : list (string * A)) : option A :=
  match m with
  | [] => None
  | (k', v) :: m' => if String.eqb k k' then Some v else assoc k m'
  end.

(** [tokenPrices[symbol] || 0]. *)
Definition price_or_0 (prices : TokenPrices) (s : string) : Q :=
  match assoc s prices with
  | Some q => if Qis0b q then 0 else q
  | None => 0
  end.

(** [positionMap[k] = v] on a JS object: overwrite in place if present,
    otherwise add the key at the end. *)
Fixpoint obj_set {A} (k : string) (v : A) (m : list (string * A))
  : list (string * A) :=
  match m with
  | [] => [(k, v)]
  | (k', v') :: m' =>
      if String.eqb k k' then (k', v) :: m' else (k', v') :: obj_set k v m'
  end.

(** ** Positions effect *)

Definition new_position (prices : TokenPrices) (sym : string) : TokenPosition :=
  {| symbol := sym; totalAmount := 0; avgCostBasis := 0;
     currentPrice := price_or_0 prices sym; totalInvested := 0;
     currentValue := 0; pnl := 0; pnlPercentage := 0; transactions := [] |}.

Definition push_tx (p : TokenPosition) (t : Transaction) : TokenPosition :=
  {| symbol := symbol p; totalAmount := totalAmount p;
     avgCostBasis := avgCostBasis p; currentPrice := currentPrice p;
     totalInvested := totalInvested p; currentValue := currentValue p;
     pnl := pnl p; pnlPercentage := pnlPercentage p;
     transactions := transactions p ++ [t] |}.

(** The [buy] / [sell] branches of the loop body. *)
Definition apply_tx (p : TokenPosition) (t : Transaction) : TokenPosition :=
  match type t with
  | buy =>
      let newTotalInvested := totalInvested p + totalValue t in
      let newTotalAmount := totalAmount p + amount t in
      {| symbol := symbol p; totalAmount := newTotalAmount;
         avgCostBasis :=
           if Qgt0b newTotalAmount then newTotalInvested / newTotalAmount else 0;
         currentPrice := currentPrice p; totalInvested := newTotalInvested;
         currentValue := currentValue p; pnl := pnl p;
         pnlPercentage := pnlPercentage p; transactions := transactions p |}
  | sell =>
      {| symbol := symbol p; totalAmount := totalAmount p - amount t;
         avgCostBasis := avgCostBasis p; currentPrice := currentPrice p;
         totalInvested := totalInvested p - amount t * avgCostBasis p;
         currentValue := currentValue p; pnl := pnl p;
         pnlPercentage := pnlPercentage p; transactions := transactions p |}
  end.

(** One iteration of [transactions.forEach(...)]. *)
Definition position_step (prices : TokenPrices)
    (positionMap : list (string * TokenPosition)) (t : Transaction)
  : list (string * TokenPosition) :=
  let sym := toUpperCase (tokenSymbol t) in
  let p0 := match assoc sym positionMap with
            | Some p => p
            | None => new_position prices sym
            end in
  obj_set sym (apply_tx (push_tx p0 t) t) positionMap.

Definition fold_positions (prices : TokenPrices) (txs : list Transaction)
  : list (string * TokenPosition) :=
  fold_left (position_step prices) txs [].

(** The "Calculate current values and P&L" loop body. *)
Definition derive_fields (prices : TokenPrices) (p : TokenPosition)
  : TokenPosition :=
  let cp := price_or_0 prices (symbol p) in
  let cv := totalAmount p * cp in
  let pl := cv - totalInvested p in
  {| symbol := symbol p; totalAmount := totalAmount p;
     avgCostBasis := avgCostBasis p; currentPrice := cp;
     totalInvested := totalInvested p; currentValue := cv; pnl := pl;
     pnlPercentage :=
       if Qgt0b (totalInvested p) then (pl / totalInvested p) * 100 else 0;
     transactions := transactions p |}.

(** [setPositions(Object.values(positionMap).filter(p => p.totalAmount > 0))]. *)
Definition resolve (txs : list Transaction) (prices : TokenPrices)
  : list TokenPosition :=
  filter (fun p => Qgt0b (totalAmount p))
    (map (fun kv => derive_fields prices (snd kv)) (fold_positions prices txs)).

(** ** Daily PnL effect *)

Record DailyPnL := mkDailyPnL {
  date : string;
  portfolioValue : Q;
  dailyChange : Q;
  dailyChangePercentage : Q
}.

(** The object literal built in both branches of the daily-PnL effect. *)
Definition mk_entry (today : string) (currentValue previousValue : Q)
  : DailyPnL :=
  {| date := today; portfolioValue := currentValue;
     dailyChange := currentValue - previousValue;
     dailyChangePercentage :=
       if Qgt0b previousValue
       then ((currentValue - previousValue) / previousValue) * 100 else 0 |}.

(** [Array.prototype.findIndex]; [None] stands for [-1]. *)
Fixpoint findIndex {A} (f : A -> bool) (l : list A) : option nat :=
  match l with
  | [] => None
  | x :: l' =>
      if f x then Some O
      else match findIndex f l' with Some i => Some (S i) | None => None end
  end.

(** [updatedHistory[i] = x] on a copy, for an index inside the array. *)
Fixpoint replace_at {A} (i : nat) (x : A) (l : list A) : list A :=
  match l, i with
  | [], _ => []
  | _ :: l', O => x :: l'
  | y :: l', S i' => y :: replace_at i' x l'
  end.

(** [arr[arr.length - 1]] for a non-empty array. *)
Fixpoint last_opt {A} (l : list A) : option A :=
  match l with
  | [] => None
  | [x] => Some x
  | _ :: l' => last_opt l'
  end.

(** [dailyPnLHistory[existingEntryIndex - 1]?.portfolioValue || startBalance]. *)
Definition prev_of_existing (startBalance : Q) (h : list DailyPnL) (i : nat)
  : Q :=
  match i with
  | O => startBalance
  | S j =>
      match nth_error h j with
      | Some e => if Qis0b (portfolioValue e) then startBalance
                  else portfolioValue e
      | None => startBalance
      end
  end.

(** [dailyPnLHistory.length > 0 ? last.portfolioValue : startBalance]. *)
Definition prev_of_new (startBalance : Q) (h : list DailyPnL) : Q :=
  match last_opt h with
  | Some e => portfolioValue e
  | None => startBalance
  end.

(** Body of the "Track daily PnL changes" effect, as a function from the
    current history to the next one ([today] is [new Date().toDateString()]). *)
Definition daily_sample (currentValue startBalance : Q) (today : string)
    (dailyPnLHistory : list DailyPnL) : list DailyPnL :=
  if Qis0b currentValue then dailyPnLHistory
  else
    match findIndex (fun e => String.eqb (date e) today) dailyPnLHistory with
    | Some i =>
        replace_at i
          (mk_entry today currentValue
             (prev_of_existing startBalance dailyPnLHistory i))
          dailyPnLHistory
    | None =>
        dailyPnLHistory ++
          [mk_entry today currentValue (prev_of_new startBalance dailyPnLHistory)]
    end.

(** [getTotalPortfolioValue]. *)
Definition getTotalPortfolioValue (positions : list TokenPosition) : Q :=
  fold_left (fun total p => total + currentValue p) positions 0.

(** The effect, run on the current [positions] state. *)
Definition daily_effect (positions : list TokenPosition) (startBalance : Q)
    (today : string) (h : list DailyPnL) : list DailyPnL :=
  daily_sample (getTotalPortfolioValue positions) startBalance today h.

(** Histories the effect can produce, starting from the empty history. *)
Inductive reachable : list DailyPnL -> Prop :=
| reachable_nil : reachable []
| reachable_sample v sb d h :
    reachable h -> reachable (daily_sample v sb d h).

(** ** addTransaction *)

(** The [newTransaction] form state.  The amount and price inputs are
    [type="number"] fields: their value is the empty string or the text of a
    number; [None] is the empty string and [Some q] the number [parseFloat]
    reads from the text. *)
Module Form.
Record NewTransaction := mkNewTransaction {
  tokenSymbol : string;
  type : TxType;
  amount : option Q;
  pricePerToken : option Q
}.
End Form.

(** [addTransaction]: the next [transactions] state.  [now] is [Date.now()]
    and [nowStr] its [toString()]. *)
Definition addTransaction (now : Z) (nowStr : string)
    (newTransaction : Form.NewTransaction) (txs : list Transaction)
  : list Transaction :=
  match Form.tokenSymbol newTransaction, Form.amount newTransaction,
        Form.pricePerToken newTransaction with
  | EmptyString, _, _ => txs
  | _, None, _ => txs
  | _, _, None => txs
  | sym, Some a, Some p =>
      txs ++ [{| id := nowStr; tokenSymbol := toUpperCase sym;
                 type := Form.type newTransaction; amount := a;
                 pricePerToken := p; timestamp := now; totalValue := a * p |}]
  end.

(** ** Positions lookup *)

(** The position recorded for [s] after folding [txs], or the fresh one
    the loop would create for it. *)
Definition pos_of (prices : TokenPrices) (txs : list Transaction) (s : string)
  : TokenPosition :=
  match assoc s (fold_positions prices txs) with
  | Some p => p
  | None => new_position prices s
  end.

(** Scenario transactions. *)
Definition tx (sym : string) (ty : TxType) (a p : Q) : Transaction :=
  {| id := sym; tokenSymbol := sym; type := ty; amount := a;
     pricePerToken := p; timestamp := 0%Z; totalValue := a * p |}.

Definition scenarioA : list Transaction :=
  [tx "BTC" buy (1#2) 45000; tx "BTC" buy (1#2) 47000].

Definition scenarioB : list Transaction :=
  scenarioA ++ [tx "BTC" sell (2#10) 50000].

(** ** Price fetching ([fetchTokenPrices]) *)

(** [String.prototype.toLowerCase] restricted to ASCII letters. *)
Definition ascii_lower (c : ascii) : ascii :=
  let n := nat_of_ascii c in
  if Nat.leb 65 n && Nat.leb n 90 then ascii_of_nat (Nat.add n 32) else c.

Fixpoint toLowerCase (s : string) : string :=
  match s with
  | EmptyString => EmptyString
  | String c s' => String (ascii_lower c) (toLowerCase s')
  end.

(** [[...new Set(xs)]]: the distinct elements in first-insertion order. *)
Definition set_spread (xs : list string) : list string :=
  fold_left (fun acc x => if existsb (String.eqb x) acc then acc else acc ++ [x])
    xs [].

Definition POPULAR_TOKENS : list string :=
  ["BTC"; "ETH"; "SOL"; "USDC"; "USDT"; "BNB"; "XRP"; "ADA"]%string.

(** [tokensToFetch] in [fetchTokenPrices]. *)
Definition tokensToFetch (transactions : list Transaction) : list string :=
  let uniqueTokens := set_spread (map tokenSymbol transactions) in
  set_spread (uniqueTokens ++ POPULAR_TOKENS).

(** The coin id chosen for a token (the conditional chain of the source). *)
Definition coinId (token : string) : string :=
  let l := toLowerCase token in
  if String.eqb l "btc" then "bitcoin"
  else if String.eqb l "eth" then "ethereum"
  else if String.eqb l "sol" then "solana"
  else if String.eqb l "usdc" then "usd-coin"
  else if String.eqb l "usdt" then "tether"
  else if String.eqb l "bnb" then "binancecoin"
  else if String.eqb l "xrp" then "ripple"
  else if String.eqb l "ada" then "cardano"
  else l.

(** The parsed JSON response: a coin id maps to the [usd] field of its
    object ([None] when the field is absent). *)
Definition PriceResponse := list (string * option Q).

(** One iteration of [tokensToFetch.forEach(...)]: the entry is written when
    [data[coinId] && data[coinId].usd] is truthy. *)
Definition price_step (data : PriceResponse) (prices : TokenPrices)
    (token : string) : TokenPrices :=
  match assoc (coinId token) data with
  | Some (Some usd) =>
      if Qis0b usd then prices else obj_set (toUpperCase token) usd prices
  | _ => prices
  end.

Definition build_prices (tokens : list string) (data : PriceResponse)
  : TokenPrices :=
  fold_left (price_step data) tokens [].

(** The [tokenPrices] state after [fetchTokenPrices]: [response] is [None]
    when the request throws or [response.ok] is false. *)
Definition fetchTokenPrices (transactions : list Transaction)
    (response : option PriceResponse) (tokenPrices : TokenPrices)
  : TokenPrices :=
  match tokensToFetch transactions with
  | [] => tokenPrices
  | toks =>
      match response with
      | Some data => build_prices toks data
      | None => tokenPrices
      end
  end.

(** ** Read-outs of the component state *)

(** [getTodaysPnL]: [dailyPnLHistory.find(entry => entry.date === today)]. *)
Definition getTodaysPnL (today : string) (dailyPnLHistory : list DailyPnL)
  : option DailyPnL :=
  find (fun e => String.eqb (date e) today) dailyPnLHistory.

Definition getTotalInvested (positions : list TokenPosition) : Q :=
  fold_left (fun total p => total + totalInvested p) positions 0.

Definition getTotalPnL (positions : list TokenPosition) : Q :=
  fold_left (fun total p => total + pnl p) positions 0.

(** ** Auxiliary definitions for the statements *)

(** Keys are distinct and every position carries its key as [symbol]. *)
Definition map_ok (m : list (string * TokenPosition)) : Prop :=
  NoDup (map fst m) /\ Forall (fun kv => symbol (snd kv) = fst kv) m.

Fixpoint spent (txs : list Transaction) : Q :=
  match txs with
  | [] => 0
  | t :: txs' => amount t * pricePerToken t + spent txs'
  end.

Fixpoint held (txs : list Transaction) : Q :=
  match txs with
  | [] => 0
  | t :: txs' => amount t + held txs'
  end.

(** Buy 1 @ 10, sell 3, buy 1 @ 10: the last buy leaves [totalAmount = -1]. *)
Definition oversell_then_buy : list Transaction :=
  [tx "BTC" buy 1 10; tx "BTC" sell 3 10; tx "BTC" buy 1 10].

(** A submission with a negative amount and a negative price. *)
Definition negative_form : Form.NewTransaction :=
  {| Form.tokenSymbol := "btc"; Form.type := buy;
     Form.amount := Some (-1); Form.pricePerToken := Some (-5) |}.

Definition btc_price : TokenPrices := [("BTC"%string, 50000)].

Definition is_date (d : string) (e : DailyPnL) : bool := String.eqb (date e) d.

(** Invariant of reachable histories: one entry per date, and no entry
    with value 0 (the effect returns early on a zero total). *)
Definition hist_ok (h : list DailyPnL) : Prop :=
  NoDup (map date h) /\ Forall (fun e => ~ portfolioValue e == 0) h.

(** Two samples: Thursday (value 100) and Friday (value 110). *)
Definition thu_fri : list DailyPnL :=
  daily_sample 110 0 "Fri" (daily_sample 100 0 "Thu" []).

(** The ledger entries of one symbol (after upper-casing), in ledger order. *)
Definition sym_filter (s : string) (txs : list Transaction) : list Transaction :=
  filter (fun t => String.eqb (toUpperCase (tokenSymbol t)) s) txs.

(** Net amount bought minus sold. *)
Fixpoint net_held (txs : list Transaction) : Q :=
  match txs with
  | [] => 0
  | t :: txs' =>
      match type t with
      | buy => amount t + net_held txs'
      | sell => - amount t + net_held txs'
      end
  end.

(** The fields of a position that do not depend on prices. *)
Definition price_free (p : TokenPosition)
  : string * Q * Q * Q * list Transaction :=
  (symbol p, totalAmount p, totalInvested p, avgCostBasis p, transactions p).

(** A position with its price-dependent fields cleared. *)
Definition strip (p : TokenPosition) : TokenPosition :=
  {| symbol := symbol p; totalAmount := totalAmount p;
     avgCostBasis := avgCostBasis p; currentPrice := 0;
     totalInvested := totalInvested p; currentValue := 0; pnl := 0;
     pnlPercentage := 0; transactions := transactions p |}.

Definition strip_kv (kv : string * TokenPosition) : string * TokenPosition :=
  (fst kv, strip (snd kv)).

(** Along the ledger, every buy of [s] has a positive amount and no sell of
    [s] exceeds the amount held just before it. *)
Definition no_oversell (prices : TokenPrices) (s : string)
    (txs : list Transaction) : Prop :=
  forall pre t post, txs = pre ++ t :: post ->
  toUpperCase (tokenSymbol t) = s ->
  (type t = buy -> 0 < amount t) /\
  (type t = sell -> amount t <= totalAmount (pos_of prices pre s)).

(** A price response: bitcoin quoted at 50000, ethereum without a [usd]
    field. *)
Definition btc_response : PriceResponse :=
  [("bitcoin"%string, Some 50000); ("ethereum"%string, None)].

(** ** Scenarios A and B, evaluated *)

Example scenarioA_fields :
  avgCostBasis (pos_of [] scenarioA "BTC") == 46000 /\
  totalAmount (pos_of [] scenarioA "BTC") == 1 /\
  totalInvested (pos_of [] scenarioA "BTC") == 46000.
Proof. vm_compute. repeat split; reflexivity. Qed.

Example scenarioB_fields :
  avgCostBasis (pos_of [] scenarioB "BTC") == 46000 /\
  totalAmount (pos_of [] scenarioB "BTC") == 8#10 /\
  totalInvested (pos_of [] scenarioB "BTC") == 36800.
Proof. vm_compute. repeat split; reflexivity. Qed.

(** ** Facts about the numeric helpers *)

Lemma Qgt0b_spec (x : Q) : Qgt0b x = true <-> 0 < x.
Proof.
  unfold Qgt0b. split.
  - intros H. apply Qnot_le_lt. intros Hle.
    apply Qle_bool_iff in Hle. rewrite Hle in H. discriminate.
  - intros H. destruct (Qle_bool x 0) eqn:E; [|reflexivity].
    apply Qle_bool_iff in E. exfalso. apply (Qlt_not_le _ _ H E).
Qed.

Lemma Qgt0b_compat (x y : Q) : x == y -> Qgt0b x = Qgt0b y.
Proof.
  intros H. destruct (Qgt0b y) eqn:Ey.
  - apply Qgt0b_spec. rewrite H. apply Qgt0b_spec. exact Ey.
  - destruct (Qgt0b x) eqn:Ex; [|reflexivity].
    apply Qgt0b_spec in Ex. rewrite H in Ex. apply Qgt0b_spec in Ex.
    congruence.
Qed.

Lemma price_or_0_spec (prices : TokenPrices) (s : string) :
  price_or_0 prices s ==
  match assoc s prices with Some x => x | None => 0 end.
Proof.
  unfold price_or_0. destruct (assoc s prices) as [x|]; [|reflexivity].
  destruct (Qis0b x) eqn:E; [|reflexivity].
  apply Qeq_bool_eq in E. rewrite E. reflexivity.
Qed.

(** ** Facts about the JS-object model *)

Lemma assoc_obj_set_same {A} (k : string) (v : A) (m : list (string * A)) :
  assoc k (obj_set k v m) = Some v.
Proof.
  induction m as [|[k' v'] m IH]; simpl.
  - rewrite String.eqb_refl. reflexivity.
  - destruct (String.eqb k k') eqn:E; simpl; rewrite ?E; auto.
Qed.

Lemma in_keys_obj_set {A} (k x : string) (v : A) (m : list (string * A)) :
  In x (map fst (obj_set k v m)) <-> x = k \/ In x (map fst m).
Proof.
  induction m as [|[k' v'] m IH]; simpl.
  - split; intros [H|[]]; auto.
  - destruct (String.eqb k k') eqn:E; simpl.
    + apply String.eqb_eq in E. subst. intuition (subst; auto).
    + rewrite IH. tauto.
Qed.

Lemma nodup_obj_set {A} (k : string) (v : A) (m : list (string * A)) :
  NoDup (map fst m) -> NoDup (map fst (obj_set k v m)).
Proof.
  induction m as [|[k' v'] m IH]; simpl; intros Hnd.
  - constructor; [intros []|constructor].
  - inversion Hnd as [|? ? Hnin Hnd']; subst.
    destruct (String.eqb k k') eqn:E; simpl.
    + constructor; assumption.
    + constructor; [|apply IH; assumption].
      rewrite in_keys_obj_set. intros [Heq|Hin]; [|contradiction].
      subst. rewrite String.eqb_refl in E. discriminate.
Qed.

Lemma assoc_In {A} (k : string) (v : A) (m : list (string * A)) :
  assoc k m = Some v -> In (k, v) m.
Proof.
  induction m as [|[k' v'] m IH]; simpl; [discriminate|].
  destruct (String.eqb k k') eqn:E.
  - apply String.eqb_eq in E. subst. intros H. inversion H. left. reflexivity.
  - intros H. right. apply IH, H.
Qed.

Lemma In_assoc {A} (k : string) (v : A) (m : list (string * A)) :
  NoDup (map fst m) -> In (k, v) m -> assoc k m = Some v.
Proof.
  induction m as [|[k' v'] m IH]; simpl; [intros _ []|].
  intros Hnd Hin. inversion Hnd as [|? ? Hnin Hnd']; subst.
  destruct Hin as [Heq|Hin].
  - inversion Heq; subst. rewrite String.eqb_refl. reflexivity.
  - destruct (String.eqb k k') eqn:E.
    + apply String.eqb_eq in E. subst. exfalso. apply Hnin.
      apply (in_map fst _ _ Hin).
    + apply IH; assumption.
Qed.

(** ** The fold one transaction at a time *)

Lemma fold_positions_snoc (prices : TokenPrices) (txs : list Transaction)
    (t : Transaction) :
  fold_positions prices (txs ++ [t]) =
  position_step prices (fold_positions prices txs) t.
Proof. unfold fold_positions. rewrite fold_left_app. reflexivity. Qed.

Lemma pos_of_snoc (prices : TokenPrices) (txs : list Transaction)
    (t : Transaction) :
  let s := toUpperCase (tokenSymbol t) in
  pos_of prices (txs ++ [t]) s = apply_tx (push_tx (pos_of prices txs s) t) t.
Proof.
  intros s. unfold pos_of at 1. rewrite fold_positions_snoc.
  unfold position_step. fold s. rewrite assoc_obj_set_same. reflexivity.
Qed.

(** ** Well-formedness of the folded position map *)

Lemma symbol_apply_tx (p : TokenPosition) (t : Transaction) :
  symbol (apply_tx (push_tx p t) t) = symbol p.
Proof. unfold apply_tx. destruct (type t); reflexivity. Qed.

Lemma forall_obj_set (k : string) (v : TokenPosition)
    (m : list (string * TokenPosition)) :
  symbol v = k ->
  Forall (fun kv => symbol (snd kv) = fst kv) m ->
  Forall (fun kv => symbol (snd kv) = fst kv) (obj_set k v m).
Proof.
  intros Hv. induction m as [|[k' v'] m IH]; simpl; intros Hall.
  - constructor; [exact Hv|constructor].
  - pose proof (Forall_inv Hall) as Hhd. pose proof (Forall_inv_tail Hall) as Htl.
    destruct (String.eqb k k') eqn:E.
    + apply String.eqb_eq in E. constructor; [simpl; congruence|exact Htl].
    + constructor; [exact Hhd|apply IH, Htl].
Qed.

Lemma fold_positions_ok (prices : TokenPrices) (txs : list Transaction) :
  map_ok (fold_positions prices txs).
Proof.
  induction txs as [|t txs IH] using rev_ind.
  - split; constructor.
  - rewrite fold_positions_snoc. destruct IH as [Hnd Hall].
    unfold position_step. split.
    + apply nodup_obj_set, Hnd.
    + apply forall_obj_set; [|exact Hall].
      rewrite symbol_apply_tx.
      destruct (assoc _ _) as [p|] eqn:E; [|reflexivity].
      apply assoc_In in E. rewrite Forall_forall in Hall.
      exact (Hall _ E).
Qed.

(** ** Buy-only sums *)

Lemma spent_snoc (txs : list Transaction) (t : Transaction) :
  spent (txs ++ [t]) == spent txs + amount t * pricePerToken t.
Proof.
  induction txs as [|u txs IH]; simpl; [ring|]. rewrite IH. ring.
Qed.

Lemma held_snoc (txs : list Transaction) (t : Transaction) :
  held (txs ++ [t]) == held txs + amount t.
Proof.
  induction txs as [|u txs IH]; simpl; [ring|]. rewrite IH. ring.
Qed.

Lemma buy_only_fold (prices : TokenPrices) (txs : list Transaction)
    (s : string) :
  Forall (fun t => type t = buy /\ toUpperCase (tokenSymbol t) = s /\
                   totalValue t == amount t * pricePerToken t) txs ->
  let p := pos_of prices txs s in
  totalInvested p == spent txs /\ totalAmount p == held txs /\
  avgCostBasis p == (if Qgt0b (held txs) then spent txs / held txs else 0).
Proof.
  induction txs as [|t txs IH] using rev_ind; intros Hall.
  - cbn. repeat split; reflexivity.
  - apply Forall_app in Hall. destruct Hall as [Hall Ht].
    inversion Ht as [|? ? [Hty [Hs Hwf]] _]; subst s.
    destruct (IH Hall) as [Hi [Ha Havg]].
    cbv zeta. rewrite pos_of_snoc.
    remember (pos_of prices txs (toUpperCase (tokenSymbol t))) as p.
    unfold apply_tx. rewrite Hty. cbn [totalInvested totalAmount avgCostBasis push_tx].
    assert (E1 : totalAmount p + amount t == held (txs ++ [t]))
      by (rewrite held_snoc, Ha; reflexivity).
    assert (E2 : totalInvested p + totalValue t == spent (txs ++ [t]))
      by (rewrite spent_snoc, Hi, Hwf; reflexivity).
    split; [exact E2|split; [exact E1|]].
    rewrite (Qgt0b_compat _ _ E1).
    destruct (Qgt0b (held (txs ++ [t]))); [|reflexivity].
    rewrite E1, E2. reflexivity.
Qed.

(** ** C1: the buy branch *)

(** C1 (counterexample): after an oversell, a buy that leaves the held
    amount negative sets [avgCostBasis] to 0, not to
    [totalInvested / totalAmount]. *)
Lemma buy_cost_basis_counterexample :
  let p := pos_of [] oversell_then_buy "BTC" in
  totalAmount p == -1 /\ totalInvested p == -10 /\ avgCostBasis p == 0 /\
  ~ (avgCostBasis p == totalInvested p / totalAmount p).
Proof.
  vm_compute. split; [reflexivity|split; [reflexivity|split; [reflexivity|]]].
  intros H. discriminate H.
Qed.

(** C1 (amended): a buy of amount [a] at price [p] (with
    [totalValue = a * p], as [addTransaction] builds it) sets
    [invested' = invested + a*p], [held' = held + a] and
    [avgCost' = invested' / held'] when [held' > 0], 0 otherwise; so for a
    sequence of buys of one symbol, invested and held are the total spent and
    the total amount, and the average cost is their quotient whenever the
    total amount is positive. *)
Theorem buy_updates_cost_basis :
  (forall (prices : TokenPrices) (txs : list Transaction) (t : Transaction),
     type t = buy -> totalValue t == amount t * pricePerToken t ->
     let s := toUpperCase (tokenSymbol t) in
     let p := pos_of prices txs s in
     let p' := pos_of prices (txs ++ [t]) s in
     totalInvested p' == totalInvested p + amount t * pricePerToken t /\
     totalAmount p' == totalAmount p + amount t /\
     avgCostBasis p' =
       (if Qgt0b (totalAmount p')
        then totalInvested p' / totalAmount p' else 0)) /\
  (forall (prices : TokenPrices) (txs : list Transaction) (s : string),
     Forall (fun t => type t = buy /\ toUpperCase (tokenSymbol t) = s /\
                      totalValue t == amount t * pricePerToken t) txs ->
     let p := pos_of prices txs s in
     totalInvested p == spent txs /\ totalAmount p == held txs /\
     (0 < held txs -> avgCostBasis p == spent txs / held txs)).
Proof.
  split.
  - intros prices txs t Hty Hwf s p p'. subst p p' s. rewrite pos_of_snoc.
    unfold apply_tx. rewrite Hty. cbn [totalInvested totalAmount avgCostBasis push_tx].
    split; [rewrite Hwf; reflexivity|split; reflexivity].
  - intros prices txs s Hall p.
    destruct (buy_only_fold prices txs s Hall) as [Hi [Ha Havg]].
    split; [exact Hi|split; [exact Ha|]].
    intros Hpos. apply Qgt0b_spec in Hpos. rewrite Hpos in Havg.
    exact Havg.
Qed.

Lemma buy_updates_cost_basis_witness :
  Forall (fun t => type t = buy /\ toUpperCase (tokenSymbol t) = "BTC"%string /\
                   totalValue t == amount t * pricePerToken t) scenarioA /\
  0 < held scenarioA /\
  let p := pos_of [] scenarioA "BTC" in
  totalInvested p == spent scenarioA /\ totalAmount p == held scenarioA /\
  avgCostBasis p == spent scenarioA / held scenarioA.
Proof.
  assert (Hall : Forall (fun t => type t = buy /\
                   toUpperCase (tokenSymbol t) = "BTC"%string /\
                   totalValue t == amount t * pricePerToken t) scenarioA).
  { repeat constructor. }
  assert (Hpos : 0 < held scenarioA) by reflexivity.
  split; [exact Hall|split; [exact Hpos|]].
  destruct (proj2 buy_updates_cost_basis [] scenarioA "BTC"%string Hall)
    as [Hi [Ha Havg]].
  split; [exact Hi|split; [exact Ha|exact (Havg Hpos)]].
Defined.

(** ** C2: the sell branch *)

(** C2: a sell of amount [a] sets [held' = held - a] and
    [invested' = invested - a * avgCost] with the pre-sell average cost (the
    sale price is not used), and leaves [avgCostBasis] unchanged, for every
    position state. *)
Theorem sell_keeps_cost_basis :
  (forall (p : TokenPosition) (t : Transaction),
     type t = sell -> avgCostBasis (apply_tx p t) = avgCostBasis p) /\
  (forall (prices : TokenPrices) (txs : list Transaction) (t : Transaction),
     type t = sell ->
     let s := toUpperCase (tokenSymbol t) in
     let p := pos_of prices txs s in
     let p' := pos_of prices (txs ++ [t]) s in
     totalAmount p' = totalAmount p - amount t /\
     totalInvested p' = totalInvested p - amount t * avgCostBasis p /\
     avgCostBasis p' = avgCostBasis p).
Proof.
  split.
  - intros p t Hty. unfold apply_tx. rewrite Hty. reflexivity.
  - intros prices txs t Hty s p p'. subst p p' s. rewrite pos_of_snoc.
    unfold apply_tx. rewrite Hty. cbn [totalInvested totalAmount avgCostBasis push_tx].
    repeat split.
Qed.

Lemma sell_keeps_cost_basis_witness :
  type (tx "BTC" sell (2#10) 50000) = sell /\
  let p := pos_of [] scenarioA "BTC" in
  let p' := pos_of [] scenarioB "BTC" in
  totalAmount p' = totalAmount p - (2#10) /\
  totalInvested p' = totalInvested p - (2#10) * avgCostBasis p /\
  avgCostBasis p' = avgCostBasis p.
Proof.
  split; [reflexivity|].
  exact (proj2 sell_keeps_cost_basis [] scenarioA (tx "BTC" sell (2#10) 50000)
           eq_refl).
Defined.

(** ** C3: addTransaction *)

(** C3 (counterexample): a submission with amount -1 and price -5 is
    appended, with no error. *)
Lemma addTransaction_counterexample :
  addTransaction 0 "0" negative_form [] =
  [{| id := "0"; tokenSymbol := "BTC"; type := buy; amount := -1;
      pricePerToken := -5; timestamp := 0; totalValue := -1 * -5 |}].
Proof. reflexivity. Qed.

(** C3 (amended): [addTransaction] leaves the ledger unchanged, and raises
    no error, exactly when the symbol, amount or price field is empty; any
    submission with all three filled in is appended, whatever the sign of
    amount and price, with the symbol upper-cased and
    [totalValue = amount * price]. *)
Theorem addTransaction_spec :
  forall (now : Z) (nowStr : string) (f : Form.NewTransaction)
         (txs : list Transaction),
  (Form.tokenSymbol f = EmptyString \/ Form.amount f = None \/
   Form.pricePerToken f = None ->
   addTransaction now nowStr f txs = txs) /\
  (forall a p : Q,
     Form.tokenSymbol f <> EmptyString -> Form.amount f = Some a ->
     Form.pricePerToken f = Some p ->
     addTransaction now nowStr f txs =
     txs ++ [{| id := nowStr; tokenSymbol := toUpperCase (Form.tokenSymbol f);
                type := Form.type f; amount := a; pricePerToken := p;
                timestamp := now; totalValue := a * p |}]).
Proof.
  intros now nowStr [sym ty am pr] txs. cbn. unfold addTransaction. cbn.
  split.
  - intros [H|[H|H]]; subst;
      [reflexivity|destruct sym; reflexivity|destruct sym, am; reflexivity].
  - intros a p Hs Ha Hp. subst.
    destruct sym; [contradiction|reflexivity].
Qed.

Lemma addTransaction_spec_witness :
  Form.tokenSymbol negative_form <> EmptyString /\
  addTransaction 0 "0" negative_form [] =
  [{| id := "0"; tokenSymbol := toUpperCase "btc"; type := buy; amount := -1;
      pricePerToken := -5; timestamp := 0; totalValue := -1 * -5 |}].
Proof.
  assert (Hs : Form.tokenSymbol negative_form <> EmptyString) by discriminate.
  split; [exact Hs|].
  exact (proj2 (addTransaction_spec 0 "0" negative_form []) (-1) (-5)
           Hs eq_refl eq_refl).
Defined.

(** ** Reported positions *)

Lemma resolve_In (txs : list Transaction) (prices : TokenPrices)
    (q : TokenPosition) :
  In q (resolve txs prices) <->
  exists k p, In (k, p) (fold_positions prices txs) /\
              q = derive_fields prices p /\ 0 < totalAmount p.
Proof.
  unfold resolve. rewrite filter_In, in_map_iff. split.
  - intros [[[k p] [Hq Hin]] Hpos]. simpl in Hq. subst q.
    exists k, p. split; [exact Hin|split; [reflexivity|]].
    apply Qgt0b_spec. exact Hpos.
  - intros [k [p [Hin [Hq Hpos]]]]. subst q. split.
    + exists (k, p). split; [reflexivity|exact Hin].
    + apply Qgt0b_spec. exact Hpos.
Qed.

Lemma resolve_symbols (txs : list Transaction) (prices : TokenPrices)
    (s : string) :
  (exists q, In q (resolve txs prices) /\ symbol q = s) <->
  (exists p, assoc s (fold_positions prices txs) = Some p /\
             0 < totalAmount p).
Proof.
  destruct (fold_positions_ok prices txs) as [Hnd Hall].
  rewrite Forall_forall in Hall. split.
  - intros [q [Hin Hs]]. apply resolve_In in Hin.
    destruct Hin as [k [p [Hin [Hq Hpos]]]]. subst q.
    assert (Hk : k = s).
    { rewrite <- Hs. exact (eq_sym (Hall _ Hin)). }
    subst k. exists p. split; [apply In_assoc; assumption|exact Hpos].
  - intros [p [Ha Hpos]]. apply assoc_In in Ha.
    exists (derive_fields prices p). split.
    + apply resolve_In. exists s, p. repeat split; assumption.
    + exact (Hall _ Ha).
Qed.

(** ** C5: oversell *)

(** C5: a sell of more than the held amount is applied arithmetically:
    the held amount becomes [held - a < 0], the position stays in the folded
    map with that negative amount, and only the [totalAmount > 0] filter
    keeps it out of the reported positions. *)
Theorem oversell_applied_then_filtered :
  forall (prices : TokenPrices) (txs : list Transaction) (t : Transaction),
  type t = sell ->
  let s := toUpperCase (tokenSymbol t) in
  let p := pos_of prices txs s in
  totalAmount p < amount t ->
  let p' := pos_of prices (txs ++ [t]) s in
  assoc s (fold_positions prices (txs ++ [t])) = Some p' /\
  totalAmount p' = totalAmount p - amount t /\
  totalInvested p' = totalInvested p - amount t * avgCostBasis p /\
  totalAmount p' < 0 /\
  ~ (exists q, In q (resolve (txs ++ [t]) prices) /\ symbol q = s).
Proof.
  intros prices txs t Hty s p Hover p'.
  assert (Hp' : p' = apply_tx (push_tx p t) t) by apply pos_of_snoc.
  assert (Ha : assoc s (fold_positions prices (txs ++ [t])) = Some p').
  { rewrite Hp', fold_positions_snoc. unfold position_step.
    apply assoc_obj_set_same. }
  assert (Hamt : totalAmount p' = totalAmount p - amount t).
  { rewrite Hp'. unfold apply_tx. rewrite Hty. reflexivity. }
  assert (Hneg : totalAmount p' < 0).
  { rewrite Hamt. apply (Qplus_lt_l _ _ (amount t)).
    setoid_replace (totalAmount p - amount t + amount t) with (totalAmount p)
      by ring.
    setoid_replace (0 + amount t) with (amount t) by ring. exact Hover. }
  split; [exact Ha|split; [exact Hamt|split; [|split; [exact Hneg|]]]].
  - rewrite Hp'. unfold apply_tx. rewrite Hty. reflexivity.
  - intros Hex. apply resolve_symbols in Hex.
    destruct Hex as [p0 [Ha0 Hpos]]. rewrite Ha in Ha0. inversion Ha0; subst p0.
    apply (Qlt_irrefl 0). apply (Qlt_trans _ _ _ Hpos Hneg).
Qed.

Lemma oversell_applied_then_filtered_witness :
  type (tx "BTC" sell 3 10) = sell /\
  totalAmount (pos_of [] [tx "BTC" buy 1 10] "BTC") < 3 /\
  totalAmount (pos_of [] [tx "BTC" buy 1 10; tx "BTC" sell 3 10] "BTC") < 0 /\
  ~ (exists q, In q (resolve [tx "BTC" buy 1 10; tx "BTC" sell 3 10] []) /\
               symbol q = "BTC"%string).
Proof.
  assert (Hty : type (tx "BTC" sell 3 10) = sell) by reflexivity.
  assert (Hlt : totalAmount (pos_of [] [tx "BTC" buy 1 10] "BTC") < 3)
    by reflexivity.
  destruct (oversell_applied_then_filtered [] [tx "BTC" buy 1 10]
              (tx "BTC" sell 3 10) Hty Hlt) as [_ [_ [_ [Hneg Hno]]]].
  split; [exact Hty|split; [exact Hlt|split; [exact Hneg|exact Hno]]].
Defined.

(** ** C6: the held > 0 filter *)

(** C6: the reported positions are exactly those of the symbols whose folded
    held amount is strictly positive; a symbol whose folded held amount is
    [<= 0] (including 0) is not reported. *)
Theorem resolve_reports_positive_held :
  forall (txs : list Transaction) (prices : TokenPrices) (s : string),
  ((exists q, In q (resolve txs prices) /\ symbol q = s) <->
   (exists p, assoc s (fold_positions prices txs) = Some p /\
              0 < totalAmount p)) /\
  (forall p, assoc s (fold_positions prices txs) = Some p ->
   totalAmount p <= 0 ->
   ~ (exists q, In q (resolve txs prices) /\ symbol q = s)).
Proof.
  intros txs prices s. split; [apply resolve_symbols|].
  intros p Ha Hle Hex. apply resolve_symbols in Hex.
  destruct Hex as [p0 [Ha0 Hpos]]. rewrite Ha in Ha0. inversion Ha0; subst p0.
  exact (Qlt_not_le _ _ Hpos Hle).
Qed.

Lemma resolve_reports_positive_held_witness :
  assoc "BTC" (fold_positions [] [tx "BTC" buy 1 10; tx "BTC" sell 1 10]) =
    Some (pos_of [] [tx "BTC" buy 1 10; tx "BTC" sell 1 10] "BTC") /\
  totalAmount (pos_of [] [tx "BTC" buy 1 10; tx "BTC" sell 1 10] "BTC") <= 0 /\
  ~ (exists q, In q (resolve [tx "BTC" buy 1 10; tx "BTC" sell 1 10] []) /\
               symbol q = "BTC"%string).
Proof.
  assert (Ha : assoc "BTC" (fold_positions [] [tx "BTC" buy 1 10; tx "BTC" sell 1 10]) =
    Some (pos_of [] [tx "BTC" buy 1 10; tx "BTC" sell 1 10] "BTC"))
    by reflexivity.
  assert (Hle : totalAmount (pos_of [] [tx "BTC" buy 1 10; tx "BTC" sell 1 10] "BTC") <= 0)
    by (vm_compute; discriminate).
  split; [exact Ha|split; [exact Hle|]].
  exact (proj2 (resolve_reports_positive_held _ [] "BTC") _ Ha Hle).
Defined.

(** ** C9: derived fields *)

(** C9: every reported position has [currentPrice] the price-map entry (0
    when absent), [currentValue = held * currentPrice],
    [pnl = currentValue - invested] and
    [pnlPercentage = invested > 0 ? pnl / invested * 100 : 0]. *)
Theorem resolve_derived_fields :
  forall (txs : list Transaction) (prices : TokenPrices) (q : TokenPosition),
  In q (resolve txs prices) ->
  currentPrice q == match assoc (symbol q) prices with
                    | Some x => x
                    | None => 0
                    end /\
  currentValue q = totalAmount q * currentPrice q /\
  pnl q = currentValue q - totalInvested q /\
  pnlPercentage q =
    (if Qgt0b (totalInvested q) then (pnl q / totalInvested q) * 100 else 0).
Proof.
  intros txs prices q Hin. apply resolve_In in Hin.
  destruct Hin as [k [p [_ [Hq _]]]]. subst q. cbn.
  split; [apply price_or_0_spec|repeat split].
Qed.

Lemma resolve_derived_fields_witness :
  In (derive_fields btc_price (pos_of btc_price scenarioA "BTC"))
     (resolve scenarioA btc_price) /\
  currentPrice (derive_fields btc_price (pos_of btc_price scenarioA "BTC"))
    == 50000.
Proof.
  assert (Hin : In (derive_fields btc_price (pos_of btc_price scenarioA "BTC"))
                   (resolve scenarioA btc_price))
    by (vm_compute; left; reflexivity).
  split; [exact Hin|].
  exact (proj1 (resolve_derived_fields scenarioA btc_price _ Hin)).
Defined.

(** ** Facts about the history operations *)

Lemma findIndex_None {A} (f : A -> bool) (l : list A) :
  findIndex f l = None <-> Forall (fun x => f x = false) l.
Proof.
  induction l as [|x l IH]; simpl; [split; constructor|].
  destruct (f x) eqn:E.
  - split; [discriminate|intros H; inversion H; congruence].
  - destruct (findIndex f l) eqn:E2; split.
    + discriminate.
    + intros H. inversion H as [|? ? _ Htl]; subst.
      apply IH in Htl. discriminate.
    + intros _. constructor; [exact E|apply IH; reflexivity].
    + reflexivity.
Qed.

Lemma findIndex_Some {A} (f : A -> bool) (l : list A) (i : nat) :
  findIndex f l = Some i -> exists x, nth_error l i = Some x /\ f x = true.
Proof.
  revert i. induction l as [|x l IH]; simpl; intros i; [discriminate|].
  destruct (f x) eqn:E.
  - intros H. inversion H; subst. exists x. split; [reflexivity|exact E].
  - destruct (findIndex f l) as [k|] eqn:E2; [|discriminate].
    intros H. inversion H; subst. apply IH. reflexivity.
Qed.

Lemma findIndex_snoc {A} (f : A -> bool) (l : list A) (x : A) :
  Forall (fun y => f y = false) l -> f x = true ->
  findIndex f (l ++ [x]) = Some (length l).
Proof.
  intros Hall Hx. induction Hall as [|y l Hy Hall IH]; simpl.
  - rewrite Hx. reflexivity.
  - rewrite Hy, IH. reflexivity.
Qed.

Lemma not_in_dates (d : string) (h : list DailyPnL) :
  ~ In d (map date h) <-> Forall (fun e => is_date d e = false) h.
Proof.
  rewrite Forall_forall. split.
  - intros Hn e Hin. unfold is_date. apply String.eqb_neq.
    intros Heq. apply Hn. rewrite <- Heq. apply in_map, Hin.
  - intros Hall Hin. apply in_map_iff in Hin. destruct Hin as [e [He Hin]].
    specialize (Hall e Hin). unfold is_date in Hall. rewrite He in Hall.
    rewrite String.eqb_refl in Hall. discriminate.
Qed.

Lemma findIndex_nodup (d : string) (h : list DailyPnL) (i : nat) (e : DailyPnL) :
  NoDup (map date h) -> nth_error h i = Some e -> date e = d ->
  findIndex (is_date d) h = Some i.
Proof.
  revert i. induction h as [|x h IH]; intros i Hnd Hnth Hd;
    [destruct i; discriminate|].
  simpl in Hnd. inversion Hnd as [|? ? Hnin Hnd']; subst.
  destruct i as [|i]; simpl in Hnth |- *.
  - inversion Hnth; subst. unfold is_date. rewrite String.eqb_refl. reflexivity.
  - destruct (is_date (date e) x) eqn:E.
    + exfalso. apply Hnin. unfold is_date in E. apply String.eqb_eq in E.
      rewrite E. apply in_map. apply (nth_error_In _ _ Hnth).
    + rewrite (IH i Hnd' Hnth eq_refl). reflexivity.
Qed.

Lemma map_replace_at {A B} (g : A -> B) (l : list A) (i : nat) (x y : A) :
  nth_error l i = Some y -> g x = g y -> map g (replace_at i x l) = map g l.
Proof.
  revert i. induction l as [|z l IH]; intros i Hnth Hg; [destruct i; discriminate|].
  destruct i as [|i]; simpl in Hnth |- *.
  - inversion Hnth; subst. rewrite Hg. reflexivity.
  - rewrite (IH i Hnth Hg). reflexivity.
Qed.

Lemma forall_replace_at {A} (P : A -> Prop) (l : list A) (i : nat) (x : A) :
  Forall P l -> P x -> Forall P (replace_at i x l).
Proof.
  revert i. induction l as [|z l IH]; intros i Hall Hx; [destruct i; constructor|].
  inversion Hall as [|? ? Hz Hl]; subst.
  destruct i; simpl; constructor; auto.
Qed.

Lemma replace_at_snoc {A} (l : list A) (x y : A) :
  replace_at (length l) y (l ++ [x]) = l ++ [y].
Proof. induction l as [|z l IH]; simpl; [reflexivity|rewrite IH; reflexivity]. Qed.

Lemma last_opt_nth {A} (l : list A) (x : A) :
  nth_error (l ++ [x]) (length l) = Some x /\
  (forall j, length l = S j -> nth_error (l ++ [x]) j = last_opt l).
Proof.
  induction l as [|z l IH]; simpl; [split; [reflexivity|discriminate]|].
  destruct IH as [IH1 IH2]. split; [exact IH1|].
  intros j Hj. inversion Hj; subst. destruct l as [|w l]; [reflexivity|].
  simpl. apply IH2. reflexivity.
Qed.

Lemma last_opt_In {A} (l : list A) (x : A) : last_opt l = Some x -> In x l.
Proof.
  induction l as [|z l IH]; simpl; [discriminate|].
  destruct l as [|w l]; [intros H; inversion H; left; reflexivity|].
  intros H. right. apply IH, H.
Qed.

(** ** The daily-PnL effect, case by case *)

Lemma Qis0b_false (v : Q) : Qis0b v = false <-> ~ v == 0.
Proof.
  unfold Qis0b. split; [apply Qeq_bool_neq|].
  intros Hn. destruct (Qeq_bool v 0) eqn:E; [|reflexivity].
  apply Qeq_bool_iff in E. contradiction.
Qed.

Lemma daily_sample_zero (v sb : Q) (d : string) (h : list DailyPnL) :
  v == 0 -> daily_sample v sb d h = h.
Proof.
  intros Hv. unfold daily_sample, Qis0b.
  apply Qeq_bool_iff in Hv. rewrite Hv. reflexivity.
Qed.

Lemma daily_sample_existing (v sb : Q) (d : string) (h : list DailyPnL)
    (i : nat) :
  ~ v == 0 -> findIndex (is_date d) h = Some i ->
  daily_sample v sb d h =
  replace_at i (mk_entry d v (prev_of_existing sb h i)) h.
Proof.
  intros Hv Hi. apply Qis0b_false in Hv. unfold daily_sample.
  rewrite Hv. change (fun e => String.eqb (date e) d) with (is_date d).
  rewrite Hi. reflexivity.
Qed.

Lemma daily_sample_new (v sb : Q) (d : string) (h : list DailyPnL) :
  ~ v == 0 -> ~ In d (map date h) ->
  daily_sample v sb d h = h ++ [mk_entry d v (prev_of_new sb h)].
Proof.
  intros Hv Hd. apply Qis0b_false in Hv.
  apply not_in_dates, findIndex_None in Hd. unfold daily_sample.
  rewrite Hv. change (fun e => String.eqb (date e) d) with (is_date d).
  rewrite Hd. reflexivity.
Qed.

Lemma reachable_ok (h : list DailyPnL) : reachable h -> hist_ok h.
Proof.
  induction 1 as [|v sb d h _ [Hnd Hall]]; [split; constructor|].
  destruct (Qis0b v) eqn:Ev.
  - apply Qeq_bool_iff in Ev. rewrite daily_sample_zero by exact Ev.
    split; assumption.
  - apply Qis0b_false in Ev.
    destruct (findIndex (is_date d) h) as [i|] eqn:Ei.
    + rewrite (daily_sample_existing _ _ _ _ _ Ev Ei).
      destruct (findIndex_Some _ _ _ Ei) as [e [Hnth Hde]].
      unfold is_date in Hde. apply String.eqb_eq in Hde.
      split.
      * rewrite (map_replace_at date h i _ e Hnth); [exact Hnd|].
        simpl. symmetry. exact Hde.
      * apply forall_replace_at; [exact Hall|exact Ev].
    + assert (Hnin : ~ In d (map date h))
        by (apply not_in_dates, findIndex_None, Ei).
      rewrite (daily_sample_new _ _ _ _ Ev Hnin). split.
      * rewrite map_app. apply NoDup_app; [exact Hnd|repeat constructor; intros []|].
        intros a Ha [Heq|[]]. simpl in Heq. subst a. contradiction.
      * apply Forall_app. split; [exact Hall|constructor; [exact Ev|constructor]].
Qed.

Lemma prev_existing_snoc (sb : Q) (h0 : list DailyPnL) (e1 : DailyPnL) :
  Forall (fun e => ~ portfolioValue e == 0) h0 ->
  prev_of_existing sb (h0 ++ [e1]) (length h0) = prev_of_new sb h0.
Proof.
  intros Hall. unfold prev_of_existing, prev_of_new.
  destruct (length h0) as [|j] eqn:Hlen.
  - apply length_zero_iff_nil in Hlen. subst h0. reflexivity.
  - rewrite (proj2 (last_opt_nth h0 e1) j Hlen).
    destruct (last_opt h0) as [x|] eqn:E; [|reflexivity].
    apply last_opt_In in E. rewrite Forall_forall in Hall.
    specialize (Hall _ E). apply Qis0b_false in Hall. rewrite Hall.
    reflexivity.
Qed.

Lemma find_nth_replace_at {A} (l : list A) (i : nat) (x e : A) :
  nth_error l i = Some e -> nth_error (replace_at i x l) i = Some x.
Proof.
  revert i. induction l as [|y l IH]; intros [|i] H; simpl in *;
    try discriminate H; [reflexivity|apply IH, H].
Qed.

(** ** C4: same-day re-sampling *)

(** C4 (counterexample): a history with an entry for "Fri"; re-sampling
    it with a total value of 0 returns at the early exit, so the entry keeps
    its old value 110 instead of being recomputed for the new total. *)
Lemma resample_zero_counterexample :
  In "Fri"%string (map date thu_fri) /\
  daily_sample 0 0 "Fri" thu_fri = thu_fri /\
  nth_error (daily_sample 0 0 "Fri" thu_fri) 1 = Some (mk_entry "Fri" 110 100) /\
  daily_sample 0 0 "Fri" thu_fri <> replace_at 1 (mk_entry "Fri" 0 100) thu_fri.
Proof.
  split; [right; left; reflexivity|].
  split; [reflexivity|split; [reflexivity|]].
  intros H. vm_compute in H. discriminate H.
Qed.

(** C4 (amended): when the history already has an entry for [today] at
    index [i] and the total value is non-zero, re-sampling rewrites that
    entry in place, and the previous value is the entry just before it in
    creation order ([startBalance] when it is the first), never today's own
    earlier value.  In particular, re-sampling right after today's first
    sample uses the same previous value as that first sample did: repeated
    samples do not compound.  With a total value of 0 the history, today's
    entry included, is left unchanged. *)
Theorem resample_uses_entry_before_today :
  (forall (v sb : Q) (d : string) (h : list DailyPnL) (i : nat)
          (e : DailyPnL),
     reachable h -> ~ v == 0 -> nth_error h i = Some e -> date e = d ->
     (i = O -> daily_sample v sb d h = replace_at O (mk_entry d v sb) h) /\
     (forall j e', i = S j -> nth_error h j = Some e' ->
        daily_sample v sb d h =
        replace_at i (mk_entry d v (portfolioValue e')) h)) /\
  (forall (v0 v sb0 sb : Q) (d : string) (h0 : list DailyPnL),
     reachable h0 -> ~ In d (map date h0) -> ~ v0 == 0 -> ~ v == 0 ->
     daily_sample v0 sb0 d h0 = h0 ++ [mk_entry d v0 (prev_of_new sb0 h0)] /\
     daily_sample v sb d (daily_sample v0 sb0 d h0) =
     h0 ++ [mk_entry d v (prev_of_new sb h0)]) /\
  (forall (v sb : Q) (d : string) (h : list DailyPnL) (i : nat)
          (e : DailyPnL),
     nth_error h i = Some e -> date e = d -> v == 0 ->
     daily_sample v sb d h = h /\ nth_error (daily_sample v sb d h) i = Some e).
Proof.
  split; [|split].
  - intros v sb d h i e Hr Hv Hnth Hd.
    destruct (reachable_ok h Hr) as [Hnd Hall].
    rewrite (daily_sample_existing v sb d h i Hv
               (findIndex_nodup d h i e Hnd Hnth Hd)).
    split.
    + intros Hi. subst i. reflexivity.
    + intros j e' Hi Hj. subst i. unfold prev_of_existing. rewrite Hj.
      rewrite Forall_forall in Hall.
      specialize (Hall _ (nth_error_In _ _ Hj)). apply Qis0b_false in Hall.
      rewrite Hall. reflexivity.
  - intros v0 v sb0 sb d h0 Hr Hd Hv0 Hv.
    destruct (reachable_ok h0 Hr) as [_ Hall].
    rewrite (daily_sample_new v0 sb0 d h0 Hv0 Hd).
    split; [reflexivity|].
    assert (Hi : findIndex (is_date d) (h0 ++ [mk_entry d v0 (prev_of_new sb0 h0)])
                 = Some (length h0)).
    { apply findIndex_snoc; [apply not_in_dates, Hd|].
      unfold is_date. apply String.eqb_refl. }
    rewrite (daily_sample_existing _ _ _ _ _ Hv Hi).
    rewrite (prev_existing_snoc sb h0 _ Hall). apply replace_at_snoc.
  - intros v sb d h i e Hnth _ Hv. rewrite (daily_sample_zero v sb d h Hv).
    split; [reflexivity|exact Hnth].
Qed.

Lemma resample_uses_entry_before_today_witness :
  reachable thu_fri /\
  nth_error thu_fri 1 = Some (mk_entry "Fri" 110 100) /\
  daily_sample 120 0 "Fri" thu_fri =
  replace_at 1 (mk_entry "Fri" 120 100) thu_fri.
Proof.
  assert (Hr : reachable thu_fri) by (repeat constructor).
  assert (Hn1 : nth_error thu_fri 1 = Some (mk_entry "Fri" 110 100))
    by reflexivity.
  assert (Hn0 : nth_error thu_fri 0 = Some (mk_entry "Thu" 100 0))
    by reflexivity.
  assert (Hv : ~ 120 == 0) by discriminate.
  split; [exact Hr|split; [exact Hn1|]].
  exact (proj2 (proj1 resample_uses_entry_before_today 120 0 "Fri"%string thu_fri 1%nat
                  _ Hr Hv Hn1 eq_refl) 0%nat _ eq_refl Hn0).
Defined.

(** ** C7: one entry per date *)

(** C7 (counterexample): on a new date with a total value of 0 the effect
    appends nothing. *)
Lemma one_entry_per_date_counterexample :
  ~ In "Fri"%string (map date []) /\
  daily_sample 0 0 "Fri" [] = [] /\
  length (daily_sample 0 0 "Fri" []) <> S (length (@nil DailyPnL)).
Proof.
  split; [intros []|split; [reflexivity|discriminate]].
Qed.

(** C7 (amended): every reachable history keeps at most one entry per date;
    with a total value of 0 the history is unchanged; otherwise a sample on a
    date already present rewrites that date's entry in place with the new
    sample (same dates at the same positions, the entry now holding the new
    total) and a sample on a new date appends exactly one entry for it. *)
Theorem history_one_entry_per_date :
  forall (v sb : Q) (d : string) (h : list DailyPnL),
  reachable h ->
  NoDup (map date (daily_sample v sb d h)) /\
  (v == 0 -> daily_sample v sb d h = h) /\
  (~ v == 0 -> In d (map date h) ->
   exists i e, nth_error h i = Some e /\ date e = d /\
     daily_sample v sb d h =
       replace_at i (mk_entry d v (prev_of_existing sb h i)) h /\
     nth_error (daily_sample v sb d h) i =
       Some (mk_entry d v (prev_of_existing sb h i)) /\
     map date (daily_sample v sb d h) = map date h) /\
  (~ v == 0 -> ~ In d (map date h) ->
   exists e, daily_sample v sb d h = h ++ [e] /\ date e = d /\
             portfolioValue e = v).
Proof.
  intros v sb d h Hr.
  destruct (reachable_ok h Hr) as [Hnd Hall].
  split; [apply (reachable_ok _ (reachable_sample v sb d h Hr))|].
  split; [apply daily_sample_zero|].
  split.
  - intros Hv Hin. apply in_map_iff in Hin. destruct Hin as [e [Hd Hin]].
    apply In_nth_error in Hin. destruct Hin as [i Hnth].
    exists i, e.
    assert (Hs : daily_sample v sb d h =
                 replace_at i (mk_entry d v (prev_of_existing sb h i)) h)
      by exact (daily_sample_existing v sb d h i Hv
                  (findIndex_nodup d h i e Hnd Hnth Hd)).
    split; [exact Hnth|split; [exact Hd|split; [exact Hs|split]]].
    + rewrite Hs. apply (find_nth_replace_at h i _ e Hnth).
    + rewrite Hs. apply (map_replace_at date h i _ e Hnth). simpl.
      symmetry. exact Hd.
  - intros Hv Hnin. exists (mk_entry d v (prev_of_new sb h)).
    split; [apply daily_sample_new; assumption|split; reflexivity].
Qed.

Lemma history_one_entry_per_date_witness :
  reachable thu_fri /\ ~ 120 == 0 /\ In "Fri"%string (map date thu_fri) /\
  exists i e, nth_error thu_fri i = Some e /\ date e = "Fri"%string /\
     daily_sample 120 0 "Fri" thu_fri =
       replace_at i (mk_entry "Fri" 120 (prev_of_existing 0 thu_fri i)) thu_fri /\
     nth_error (daily_sample 120 0 "Fri" thu_fri) i =
       Some (mk_entry "Fri" 120 (prev_of_existing 0 thu_fri i)) /\
     map date (daily_sample 120 0 "Fri" thu_fri) = map date thu_fri.
Proof.
  assert (Hr : reachable thu_fri) by (repeat constructor).
  assert (Hv : ~ 120 == 0) by discriminate.
  assert (Hin : In "Fri"%string (map date thu_fri)) by (right; left; reflexivity).
  split; [exact Hr|split; [exact Hv|split; [exact Hin|]]].
  exact (proj1 (proj2 (proj2 (history_one_entry_per_date 120 0 "Fri" thu_fri Hr)))
           Hv Hin).
Defined.

(** ** C8: a new day's entry *)

(** C8: a sample that creates a new entry (non-zero total, no entry for the
    date) appends one entry whose previous value is the value of the last
    entry, or [startBalance] for an empty history, with
    [dailyChange = value - previous] and
    [dailyChangePercentage = previous > 0 ? dailyChange / previous * 100 : 0];
    so a previous value [<= 0] (e.g. 0) gives a percentage of exactly 0. *)
Theorem new_day_entry :
  forall (v sb : Q) (d : string) (h : list DailyPnL),
  ~ v == 0 -> ~ In d (map date h) ->
  let prev := match last_opt h with
              | Some e => portfolioValue e
              | None => sb
              end in
  exists e, daily_sample v sb d h = h ++ [e] /\
    date e = d /\ portfolioValue e = v /\
    dailyChange e = v - prev /\
    dailyChangePercentage e =
      (if Qgt0b prev then ((v - prev) / prev) * 100 else 0) /\
    (prev <= 0 -> dailyChangePercentage e = 0).
Proof.
  intros v sb d h Hv Hd prev.
  exists (mk_entry d v prev).
  split; [apply daily_sample_new; assumption|].
  cbn. repeat split.
  intros Hle. destruct (Qgt0b prev) eqn:E; [|reflexivity].
  apply Qgt0b_spec in E. exfalso. exact (Qlt_not_le _ _ E Hle).
Qed.

(** Scenario D: no starting balance and no earlier snapshot. *)
Lemma new_day_entry_witness :
  ~ 100 == 0 /\ ~ In "Fri"%string (map date []) /\
  exists e, daily_sample 100 0 "Fri" [] = [e] /\ dailyChangePercentage e = 0.
Proof.
  assert (Hv : ~ 100 == 0) by discriminate.
  assert (Hd : ~ In "Fri"%string (map date [])) by (intros []).
  split; [exact Hv|split; [exact Hd|]].
  destruct (new_day_entry 100 0 "Fri" [] Hv Hd)
    as [e [He [_ [_ [_ [_ Hz]]]]]].
  exists e. split; [exact He|apply Hz, Qle_refl].
Defined.

(** ** C10: zero total value *)

(** C10: when the total portfolio value of the positions is 0, the daily
    effect leaves the history unchanged, whatever it holds. *)
Theorem zero_value_sample_is_noop :
  forall (positions : list TokenPosition) (startBalance : Q) (today : string)
         (h : list DailyPnL),
  getTotalPortfolioValue positions == 0 ->
  daily_effect positions startBalance today h = h.
Proof.
  intros positions startBalance today h H0.
  unfold daily_effect. apply daily_sample_zero, H0.
Qed.

Lemma zero_value_sample_is_noop_witness :
  getTotalPortfolioValue [] == 0 /\
  daily_effect [] 0 "Fri" thu_fri = thu_fri.
Proof.
  assert (H0 : getTotalPortfolioValue [] == 0) by reflexivity.
  split; [exact H0|exact (zero_value_sample_is_noop [] 0 "Fri" thu_fri H0)].
Defined.

(** ** Facts about [new Set] and the token list *)

Lemma set_spread_gen (xs acc : list string) :
  let f := fun acc x => if existsb (String.eqb x) acc then acc else acc ++ [x] in
  (forall y, In y (fold_left f xs acc) <-> In y acc \/ In y xs) /\
  (NoDup acc -> NoDup (fold_left f xs acc)).
Proof.
  intros f. revert acc. induction xs as [|x xs IH]; intros acc; simpl.
  - split; [intros y; tauto|auto].
  - destruct (IH (f acc x)) as [IHin IHnd]. split.
    + intros y. rewrite IHin. unfold f.
      destruct (existsb (String.eqb x) acc) eqn:E.
      * apply existsb_exists in E. destruct E as [z [Hz Hxz]].
        apply String.eqb_eq in Hxz. subst z.
        split; [tauto|intros [H|[H|H]]; [tauto|subst; tauto|tauto]].
      * rewrite in_app_iff. simpl. intuition.
    + intros Hnd. apply IHnd. unfold f.
      destruct (existsb (String.eqb x) acc) eqn:E; [exact Hnd|].
      apply NoDup_app; [exact Hnd|repeat constructor; intros []|].
      intros a Ha [Hax|[]]. subst a.
      assert (Hc : existsb (String.eqb x) acc = true).
      { apply existsb_exists. exists x. split; [exact Ha|apply String.eqb_refl]. }
      congruence.
Qed.

Lemma set_spread_In (xs : list string) (y : string) :
  In y (set_spread xs) <-> In y xs.
Proof.
  unfold set_spread. rewrite (proj1 (set_spread_gen xs [])). simpl. tauto.
Qed.

Lemma set_spread_NoDup (xs : list string) : NoDup (set_spread xs).
Proof. unfold set_spread. apply (proj2 (set_spread_gen xs [])). constructor. Qed.

Lemma tokensToFetch_In (transactions : list Transaction) (x : string) :
  In x (tokensToFetch transactions) <->
  In x POPULAR_TOKENS \/ exists t, In t transactions /\ tokenSymbol t = x.
Proof.
  unfold tokensToFetch. rewrite set_spread_In, in_app_iff, set_spread_In,
    in_map_iff.
  split; intros [H|H]; [right|left|right|left]; try exact H;
    destruct H as [t [Ht Hin]]; exists t; split; assumption.
Qed.

Lemma tokensToFetch_length (transactions : list Transaction) :
  (8 <= length (tokensToFetch transactions))%nat.
Proof.
  change 8%nat with (length POPULAR_TOKENS).
  apply NoDup_incl_length.
  - unfold POPULAR_TOKENS. repeat constructor; simpl; intuition discriminate.
  - intros x Hx. apply tokensToFetch_In. left. exact Hx.
Qed.

Lemma fetchTokenPrices_cases (transactions : list Transaction)
    (response : option PriceResponse) (tokenPrices : TokenPrices) :
  fetchTokenPrices transactions response tokenPrices =
  match response with
  | Some data => build_prices (tokensToFetch transactions) data
  | None => tokenPrices
  end.
Proof.
  unfold fetchTokenPrices.
  pose proof (tokensToFetch_length transactions) as Hlen.
  destruct (tokensToFetch transactions); [simpl in Hlen; lia|reflexivity].
Qed.

(** ** Facts about the price map *)

Lemma ascii_lower_upper (c : ascii) : ascii_lower (ascii_upper c) = ascii_lower c.
Proof. destruct c as [[] [] [] [] [] [] [] []]; reflexivity. Qed.

Lemma toLowerCase_toUpperCase (s : string) :
  toLowerCase (toUpperCase s) = toLowerCase s.
Proof.
  induction s as [|c s IH]; simpl; [reflexivity|].
  rewrite ascii_lower_upper, IH. reflexivity.
Qed.

Lemma coinId_upper (a b : string) :
  toUpperCase a = toUpperCase b -> coinId a = coinId b.
Proof.
  intros H. unfold coinId.
  rewrite <- (toLowerCase_toUpperCase a), <- (toLowerCase_toUpperCase b), H.
  reflexivity.
Qed.

Lemma assoc_obj_set_other {A} (k k' : string) (v : A) (m : list (string * A)) :
  k <> k' -> assoc k (obj_set k' v m) = assoc k m.
Proof.
  intros Hne. induction m as [|[k0 v0] m IH]; simpl.
  - destruct (String.eqb k k') eqn:E; [apply String.eqb_eq in E; contradiction|].
    reflexivity.
  - destruct (String.eqb k' k0) eqn:E; simpl.
    + apply String.eqb_eq in E. subst k0.
      destruct (String.eqb k k') eqn:E2;
        [apply String.eqb_eq in E2; contradiction|reflexivity].
    + destruct (String.eqb k k0); [reflexivity|exact IH].
Qed.

Lemma build_prices_sound_gen (data : PriceResponse) (L xs : list string)
    (acc : TokenPrices) :
  incl xs L ->
  (forall k v, assoc k acc = Some v ->
     ~ v == 0 /\ exists t, In t L /\ toUpperCase t = k /\
                           assoc (coinId t) data = Some (Some v)) ->
  forall k v, assoc k (fold_left (price_step data) xs acc) = Some v ->
     ~ v == 0 /\ exists t, In t L /\ toUpperCase t = k /\
                           assoc (coinId t) data = Some (Some v).
Proof.
  revert acc. induction xs as [|x xs IH]; intros acc Hincl Hacc; simpl;
    [exact Hacc|].
  apply IH; [intros y Hy; apply Hincl; right; exact Hy|].
  intros k v. unfold price_step.
  destruct (assoc (coinId x) data) as [[u|]|] eqn:Ed; try apply Hacc.
  destruct (Qis0b u) eqn:Eu; [apply Hacc|].
  destruct (String.eqb k (toUpperCase x)) eqn:Ek.
  - apply String.eqb_eq in Ek. subst k. rewrite assoc_obj_set_same.
    intros H. inversion H; subst v. split; [apply Qis0b_false, Eu|].
    exists x. split; [apply Hincl; left; reflexivity|split; [reflexivity|exact Ed]].
  - apply String.eqb_neq in Ek. rewrite (assoc_obj_set_other _ _ _ _ Ek).
    apply Hacc.
Qed.

Lemma build_prices_complete_gen (data : PriceResponse) (t : string) (u : Q)
    (xs : list string) (acc : TokenPrices) :
  assoc (coinId t) data = Some (Some u) -> ~ u == 0 ->
  In t xs \/ assoc (toUpperCase t) acc = Some u ->
  assoc (toUpperCase t) (fold_left (price_step data) xs acc) = Some u.
Proof.
  intros Hd Hu. revert acc. induction xs as [|x xs IH]; intros acc Hin; simpl.
  - destruct Hin as [[]|H]; exact H.
  - apply IH. unfold price_step.
    destruct (String.eqb (toUpperCase t) (toUpperCase x)) eqn:Ek.
    + apply String.eqb_eq in Ek.
      rewrite <- (coinId_upper _ _ Ek), Hd.
      apply Qis0b_false in Hu. rewrite Hu. right. rewrite Ek.
      apply assoc_obj_set_same.
    + apply String.eqb_neq in Ek.
      destruct Hin as [[Hx|Hx]|Hacc].
      * subst x. contradiction.
      * left. exact Hx.
      * right. destruct (assoc (coinId x) data) as [[w|]|]; try exact Hacc.
        destruct (Qis0b w); [exact Hacc|].
        rewrite (assoc_obj_set_other _ _ _ _ Ek). exact Hacc.
Qed.

(** ** Extra properties: price fetching *)

(** X1: the token list of [fetchTokenPrices] holds each transaction symbol
    and each popular token exactly once and nothing else; so it has at least
    8 entries and the early return on an empty list is never taken. *)
Theorem tokensToFetch_spec :
  forall transactions : list Transaction,
  (forall x, In x (tokensToFetch transactions) <->
             In x POPULAR_TOKENS \/
             exists t, In t transactions /\ tokenSymbol t = x) /\
  NoDup (tokensToFetch transactions) /\
  (8 <= length (tokensToFetch transactions))%nat.
Proof.
  intros transactions. split; [apply tokensToFetch_In|].
  split; [apply set_spread_NoDup|apply tokensToFetch_length].
Qed.

(** X2: the price map built from a response has an entry for key [k] with
    value [v] only if [v] is non-zero and is the quote of the coin of some
    fetched token whose upper-case form is [k]; conversely every fetched
    token with a non-zero quote gets that quote under its upper-case symbol
    (tokens differing only in case map to the same coin, so later writes
    never disagree). *)
Theorem build_prices_spec :
  forall (tokens : list string) (data : PriceResponse),
  (forall k v, assoc k (build_prices tokens data) = Some v ->
     ~ v == 0 /\ exists t, In t tokens /\ toUpperCase t = k /\
                           assoc (coinId t) data = Some (Some v)) /\
  (forall t u, In t tokens -> assoc (coinId t) data = Some (Some u) ->
     ~ u == 0 -> assoc (toUpperCase t) (build_prices tokens data) = Some u).
Proof.
  intros tokens data. split.
  - apply build_prices_sound_gen; [intros x Hx; exact Hx|].
    intros k v H. discriminate H.
  - intros t u Hin Hd Hu. apply build_prices_complete_gen; auto.
Qed.

Lemma build_prices_spec_witness :
  In "BTC"%string POPULAR_TOKENS /\
  assoc (coinId "BTC") btc_response = Some (Some 50000) /\ ~ 50000 == 0 /\
  assoc "BTC" (build_prices POPULAR_TOKENS btc_response) = Some 50000 /\
  assoc "ETH" (build_prices POPULAR_TOKENS btc_response) = None.
Proof.
  assert (Hin : In "BTC"%string POPULAR_TOKENS) by (left; reflexivity).
  assert (Hd : assoc (coinId "BTC") btc_response = Some (Some 50000))
    by reflexivity.
  assert (Hu : ~ 50000 == 0) by discriminate.
  split; [exact Hin|split; [exact Hd|split; [exact Hu|split]]].
  - exact (proj2 (build_prices_spec POPULAR_TOKENS btc_response) _ _ Hin Hd Hu).
  - reflexivity.
Defined.

(** X3: after a successful price fetch, every reported position of a
    symbol traded in the ledger carries the response's non-zero quote for
    that symbol's coin as its [currentPrice]. *)
Theorem fetched_quote_reaches_position :
  forall (transactions : list Transaction) (data : PriceResponse)
         (old : TokenPrices) (t : Transaction) (u : Q) (q : TokenPosition),
  In t transactions ->
  assoc (coinId (tokenSymbol t)) data = Some (Some u) -> ~ u == 0 ->
  In q (resolve transactions (fetchTokenPrices transactions (Some data) old)) ->
  symbol q = toUpperCase (tokenSymbol t) ->
  currentPrice q = u.
Proof.
  intros transactions data old t u q Ht Hd Hu Hq Hs.
  rewrite fetchTokenPrices_cases in Hq.
  apply resolve_In in Hq. destruct Hq as [k [p [_ [Hqe _]]]]. subst q.
  cbn in Hs |- *. rewrite Hs. unfold price_or_0.
  unfold build_prices. rewrite (build_prices_complete_gen data (tokenSymbol t) u _ [] Hd Hu).
  - apply Qis0b_false in Hu. rewrite Hu. reflexivity.
  - left. apply tokensToFetch_In. right. exists t. split; [exact Ht|reflexivity].
Qed.

Lemma fetched_quote_reaches_position_witness :
  In (derive_fields (fetchTokenPrices scenarioA (Some btc_response) [])
        (pos_of (fetchTokenPrices scenarioA (Some btc_response) []) scenarioA "BTC"))
     (resolve scenarioA (fetchTokenPrices scenarioA (Some btc_response) [])) /\
  currentPrice (derive_fields (fetchTokenPrices scenarioA (Some btc_response) [])
        (pos_of (fetchTokenPrices scenarioA (Some btc_response) []) scenarioA "BTC"))
    = 50000.
Proof.
  assert (Hin : In (derive_fields (fetchTokenPrices scenarioA (Some btc_response) [])
        (pos_of (fetchTokenPrices scenarioA (Some btc_response) []) scenarioA "BTC"))
     (resolve scenarioA (fetchTokenPrices scenarioA (Some btc_response) [])))
    by (vm_compute; left; reflexivity).
  split; [exact Hin|].
  exact (fetched_quote_reaches_position scenarioA btc_response []
           (tx "BTC" buy (1#2) 45000) 50000 _ (or_introl eq_refl) eq_refl
           ltac:(discriminate) Hin eq_refl).
Defined.

(** ** Facts for the read-outs *)

Lemma find_replace_at {A} (f : A -> bool) (l : list A) (i : nat) (x : A) :
  findIndex f l = Some i -> f x = true -> find f (replace_at i x l) = Some x.
Proof.
  revert i. induction l as [|y l IH]; intros i Hi Hx; simpl in Hi; [discriminate|].
  destruct (f y) eqn:Ey.
  - inversion Hi; subst. simpl. rewrite Hx. reflexivity.
  - destruct (findIndex f l) as [k|] eqn:Ek; [|discriminate].
    inversion Hi; subst. simpl. rewrite Ey. apply IH; [reflexivity|exact Hx].
Qed.

Lemma find_snoc {A} (f : A -> bool) (l : list A) (x : A) :
  findIndex f l = None -> f x = true -> find f (l ++ [x]) = Some x.
Proof.
  intros Hn Hx. apply findIndex_None in Hn.
  induction Hn as [|y l Hy _ IH]; simpl; [rewrite Hx; reflexivity|].
  rewrite Hy. exact IH.
Qed.

Lemma nth_error_replace_at_other {A} (l : list A) (i k : nat) (x : A) :
  k <> i -> nth_error (replace_at i x l) k = nth_error l k.
Proof.
  revert i k. induction l as [|y l IH]; intros i k Hne.
  - destruct i; reflexivity.
  - destruct i as [|i], k as [|k]; simpl; try reflexivity.
    + contradiction.
    + apply IH. lia.
Qed.

Lemma totals_gen (ps : list TokenPosition) (a b c : Q) :
  Forall (fun p => pnl p = currentValue p - totalInvested p) ps ->
  a == b - c ->
  fold_left (fun total p => total + pnl p) ps a ==
  fold_left (fun total p => total + currentValue p) ps b -
  fold_left (fun total p => total + totalInvested p) ps c.
Proof.
  intros Hall. revert a b c.
  induction Hall as [|p ps Hp _ IH]; intros a b c Habc; simpl; [exact Habc|].
  apply IH. rewrite Hp, Habc. ring.
Qed.

(** ** Extra properties: the daily history and its read-outs *)

(** X4: right after a sample with a non-zero total on day [d],
    [getTodaysPnL d] returns the entry just written, holding that total;
    this holds for any history (the entry is either rewritten in place or
    appended). *)
Theorem todays_pnl_after_sample :
  forall (v sb : Q) (d : string) (h : list DailyPnL),
  ~ v == 0 ->
  exists e, getTodaysPnL d (daily_sample v sb d h) = Some e /\
            date e = d /\ portfolioValue e = v.
Proof.
  intros v sb d h Hv. unfold getTodaysPnL.
  change (fun e => String.eqb (date e) d) with (is_date d).
  destruct (findIndex (is_date d) h) as [i|] eqn:Ei.
  - exists (mk_entry d v (prev_of_existing sb h i)).
    rewrite (daily_sample_existing _ _ _ _ _ Hv Ei).
    split; [apply find_replace_at; [exact Ei|apply String.eqb_refl]|].
    split; reflexivity.
  - exists (mk_entry d v (prev_of_new sb h)).
    assert (Hnin : ~ In d (map date h))
      by (apply not_in_dates, findIndex_None, Ei).
    rewrite (daily_sample_new _ _ _ _ Hv Hnin).
    split; [apply find_snoc; [exact Ei|apply String.eqb_refl]|].
    split; reflexivity.
Qed.

Lemma todays_pnl_after_sample_witness :
  ~ 120 == 0 /\
  getTodaysPnL "Fri" (daily_sample 120 0 "Fri" thu_fri) =
    Some (mk_entry "Fri" 120 100).
Proof.
  assert (Hv : ~ 120 == 0) by discriminate.
  split; [exact Hv|].
  destruct (todays_pnl_after_sample 120 0 "Fri" thu_fri Hv) as [e [He _]].
  rewrite He. f_equal. vm_compute in He. inversion He. reflexivity.
Defined.

(** X5: over the reported positions, the total P&L is the total value minus
    the total invested. *)
Theorem total_pnl_is_value_minus_invested :
  forall (txs : list Transaction) (prices : TokenPrices),
  getTotalPnL (resolve txs prices) ==
  getTotalPortfolioValue (resolve txs prices) -
  getTotalInvested (resolve txs prices).
Proof.
  intros txs prices. apply totals_gen; [|ring].
  apply Forall_forall. intros q Hq. apply resolve_In in Hq.
  destruct Hq as [k [p [_ [Hqe _]]]]. subst q. reflexivity.
Qed.

(** X6: a sample never changes, moves or drops the entry of any other
    date. *)
Theorem sample_keeps_other_dates :
  forall (v sb : Q) (d : string) (h : list DailyPnL) (k : nat) (e : DailyPnL),
  nth_error h k = Some e -> date e <> d ->
  nth_error (daily_sample v sb d h) k = Some e.
Proof.
  intros v sb d h k e Hk Hd.
  destruct (Qis0b v) eqn:Ev.
  - apply Qeq_bool_iff in Ev. rewrite daily_sample_zero by exact Ev. exact Hk.
  - apply Qis0b_false in Ev.
    destruct (findIndex (is_date d) h) as [i|] eqn:Ei.
    + rewrite (daily_sample_existing _ _ _ _ _ Ev Ei).
      rewrite nth_error_replace_at_other; [exact Hk|].
      intros Hki. subst k. destruct (findIndex_Some _ _ _ Ei) as [x [Hx Hdx]].
      rewrite Hk in Hx. inversion Hx; subst x. unfold is_date in Hdx.
      apply String.eqb_eq in Hdx. contradiction.
    + assert (Hnin : ~ In d (map date h))
        by (apply not_in_dates, findIndex_None, Ei).
      rewrite (daily_sample_new _ _ _ _ Ev Hnin).
      rewrite nth_error_app1; [exact Hk|].
      apply nth_error_Some. rewrite Hk. discriminate.
Qed.

Lemma sample_keeps_other_dates_witness :
  nth_error thu_fri 0 = Some (mk_entry "Thu" 100 0) /\
  nth_error (daily_sample 120 0 "Fri" thu_fri) 0 = Some (mk_entry "Thu" 100 0).
Proof.
  assert (H0 : nth_error thu_fri 0 = Some (mk_entry "Thu" 100 0)) by reflexivity.
  split; [exact H0|].
  exact (sample_keeps_other_dates 120 0 "Fri" thu_fri 0 _ H0 ltac:(discriminate)).
Defined.

(** X7: in every reachable history, each entry's percentage agrees with its
    own change and the previous value it implies
    ([previous = portfolioValue - dailyChange]):
    [dailyChangePercentage = previous > 0 ? dailyChange / previous * 100 : 0]. *)
Theorem history_entries_consistent :
  forall h : list DailyPnL, reachable h ->
  Forall (fun e =>
    dailyChangePercentage e ==
    (if Qgt0b (portfolioValue e - dailyChange e)
     then (dailyChange e / (portfolioValue e - dailyChange e)) * 100 else 0)) h.
Proof.
  assert (Hmk : forall d v p,
    let e := mk_entry d v p in
    dailyChangePercentage e ==
    (if Qgt0b (portfolioValue e - dailyChange e)
     then (dailyChange e / (portfolioValue e - dailyChange e)) * 100 else 0)).
  { intros d v p e. subst e. cbn.
    assert (Hp : v - (v - p) == p) by ring.
    rewrite (Qgt0b_compat _ _ Hp).
    destruct (Qgt0b p); [rewrite Hp; reflexivity|reflexivity]. }
  induction 1 as [|v sb d h _ IH]; [constructor|].
  destruct (Qis0b v) eqn:Ev.
  - apply Qeq_bool_iff in Ev. rewrite daily_sample_zero by exact Ev. exact IH.
  - apply Qis0b_false in Ev.
    destruct (findIndex (is_date d) h) as [i|] eqn:Ei.
    + rewrite (daily_sample_existing _ _ _ _ _ Ev Ei).
      apply forall_replace_at; [exact IH|apply Hmk].
    + assert (Hnin : ~ In d (map date h))
        by (apply not_in_dates, findIndex_None, Ei).
      rewrite (daily_sample_new _ _ _ _ Ev Hnin).
      apply Forall_app. split; [exact IH|constructor; [apply Hmk|constructor]].
Qed.

Lemma history_entries_consistent_witness :
  reachable thu_fri /\
  Forall (fun e =>
    dailyChangePercentage e ==
    (if Qgt0b (portfolioValue e - dailyChange e)
     then (dailyChange e / (portfolioValue e - dailyChange e)) * 100 else 0))
    thu_fri.
Proof.
  assert (Hr : reachable thu_fri) by (repeat constructor).
  split; [exact Hr|exact (history_entries_consistent thu_fri Hr)].
Defined.

(** ** Facts for per-symbol reasoning *)

Lemma pos_of_snoc_other (prices : TokenPrices) (txs : list Transaction)
    (t : Transaction) (s : string) :
  s <> toUpperCase (tokenSymbol t) ->
  pos_of prices (txs ++ [t]) s = pos_of prices txs s.
Proof.
  intros Hne. unfold pos_of. rewrite fold_positions_snoc.
  unfold position_step. rewrite (assoc_obj_set_other _ _ _ _ Hne).
  reflexivity.
Qed.

Lemma sym_filter_snoc (s : string) (txs : list Transaction) (t : Transaction) :
  sym_filter s (txs ++ [t]) =
  if String.eqb (toUpperCase (tokenSymbol t)) s then sym_filter s txs ++ [t]
  else sym_filter s txs.
Proof.
  unfold sym_filter. rewrite filter_app. simpl.
  destruct (String.eqb (toUpperCase (tokenSymbol t)) s);
    [reflexivity|apply app_nil_r].
Qed.

Lemma net_held_snoc (txs : list Transaction) (t : Transaction) :
  net_held (txs ++ [t]) ==
  net_held txs + match type t with buy => amount t | sell => - amount t end.
Proof.
  induction txs as [|u txs IH]; simpl.
  - destruct (type t); ring.
  - destruct (type u); rewrite IH; ring.
Qed.

(** ** Extra properties: the position fold *)

(** X8: a symbol's position depends only on that symbol's transactions:
    folding the whole ledger gives the same position as folding only the
    entries whose upper-cased symbol is [s]. *)
Theorem position_depends_on_own_symbol :
  forall (prices : TokenPrices) (txs : list Transaction) (s : string),
  pos_of prices txs s = pos_of prices (sym_filter s txs) s.
Proof.
  intros prices txs s.
  induction txs as [|t txs IH] using rev_ind; [reflexivity|].
  rewrite sym_filter_snoc.
  destruct (String.eqb (toUpperCase (tokenSymbol t)) s) eqn:E.
  - apply String.eqb_eq in E. rewrite <- E in IH |- *.
    rewrite !pos_of_snoc, IH. reflexivity.
  - apply String.eqb_neq in E.
    rewrite pos_of_snoc_other by (intros H; apply E; symmetry; exact H).
    exact IH.
Qed.

(** X9: each position's [transactions] list is exactly the ledger entries
    of its symbol (symbols compared after upper-casing, so "btc" and "BTC"
    share one position), in ledger order; its [totalAmount] is their net
    amount, buys minus sells. *)
Theorem position_transactions_and_amount :
  forall (prices : TokenPrices) (txs : list Transaction) (s : string),
  transactions (pos_of prices txs s) = sym_filter s txs /\
  totalAmount (pos_of prices txs s) == net_held (sym_filter s txs).
Proof.
  intros prices txs s.
  induction txs as [|t txs [IHt IHa]] using rev_ind; [split; reflexivity|].
  rewrite sym_filter_snoc.
  destruct (String.eqb (toUpperCase (tokenSymbol t)) s) eqn:E.
  - apply String.eqb_eq in E. subst s. rewrite pos_of_snoc.
    unfold apply_tx. rewrite net_held_snoc.
    destruct (type t); cbn; (split; [rewrite IHt; reflexivity|]);
      rewrite IHa; ring.
  - apply String.eqb_neq in E.
    rewrite pos_of_snoc_other by (intros H; apply E; symmetry; exact H).
    split; assumption.
Qed.

Lemma map_strip_obj_set (k : string) (v : TokenPosition)
    (m : list (string * TokenPosition)) :
  map strip_kv (obj_set k v m) = obj_set k (strip v) (map strip_kv m).
Proof.
  induction m as [|[k' v'] m IH]; simpl; [reflexivity|].
  destruct (String.eqb k k'); simpl; [reflexivity|rewrite IH; reflexivity].
Qed.

Lemma assoc_map_strip (k : string) (m : list (string * TokenPosition)) :
  assoc k (map strip_kv m) = option_map strip (assoc k m).
Proof.
  induction m as [|[k' v'] m IH]; simpl; [reflexivity|].
  destruct (String.eqb k k'); [reflexivity|exact IH].
Qed.

Lemma strip_apply_tx (p : TokenPosition) (t : Transaction) :
  strip (apply_tx (push_tx p t) t) = apply_tx (push_tx (strip p) t) t.
Proof. unfold apply_tx. destruct (type t); reflexivity. Qed.

Lemma fold_positions_strip (p1 p2 : TokenPrices) (txs : list Transaction) :
  map strip_kv (fold_positions p1 txs) = map strip_kv (fold_positions p2 txs).
Proof.
  induction txs as [|t txs IH] using rev_ind; [reflexivity|].
  rewrite !fold_positions_snoc. unfold position_step.
  rewrite !map_strip_obj_set, !strip_apply_tx.
  assert (Hp0 : forall prices,
    strip match assoc (toUpperCase (tokenSymbol t)) (fold_positions prices txs) with
          | Some p => p
          | None => new_position prices (toUpperCase (tokenSymbol t))
          end =
    match assoc (toUpperCase (tokenSymbol t))
                (map strip_kv (fold_positions prices txs)) with
    | Some p => p
    | None => new_position [] (toUpperCase (tokenSymbol t))
    end).
  { intros prices. rewrite assoc_map_strip.
    destruct (assoc _ _); reflexivity. }
  rewrite !Hp0, IH. reflexivity.
Qed.

Lemma map_filter_congr {A} (core : TokenPosition -> A)
    (g1 g2 : string * TokenPosition -> TokenPosition)
    (l : list (string * TokenPosition)) :
  (forall x, core (g1 x) = core (g2 x)) ->
  (forall x, Qgt0b (totalAmount (g1 x)) = Qgt0b (totalAmount (g2 x))) ->
  map core (filter (fun p => Qgt0b (totalAmount p)) (map g1 l)) =
  map core (filter (fun p => Qgt0b (totalAmount p)) (map g2 l)).
Proof.
  intros Hc Hp. induction l as [|x l IH]; simpl; [reflexivity|].
  rewrite Hp. destruct (Qgt0b (totalAmount (g2 x))); simpl;
    [rewrite Hc, IH; reflexivity|exact IH].
Qed.

Lemma resolve_price_free (txs : list Transaction) (prices : TokenPrices) :
  map price_free (resolve txs prices) =
  map price_free (filter (fun p => Qgt0b (totalAmount p))
                    (map (fun kv => snd kv) (map strip_kv (fold_positions [] txs)))).
Proof.
  unfold resolve. rewrite <- (fold_positions_strip prices []), map_map.
  apply map_filter_congr; intros [k p]; reflexivity.
Qed.

(** X10: prices never change which positions are reported nor their
    symbol, held amount, invested amount, average cost or transaction list:
    only [currentPrice], [currentValue], [pnl] and [pnlPercentage] depend on
    the price map. *)
Theorem resolve_price_independent :
  forall (txs : list Transaction) (p1 p2 : TokenPrices),
  map price_free (resolve txs p1) = map price_free (resolve txs p2).
Proof.
  intros txs p1 p2. rewrite !resolve_price_free. reflexivity.
Qed.

(** X11: as long as every buy of [s] has a positive amount and no sell of
    [s] exceeds the amount then held, the position of [s] keeps a
    non-negative held amount and [totalInvested = totalAmount * avgCostBasis];
    in particular selling everything leaves nothing invested. *)
Theorem invested_is_held_times_avg :
  forall (prices : TokenPrices) (s : string) (txs : list Transaction),
  no_oversell prices s txs ->
  0 <= totalAmount (pos_of prices txs s) /\
  totalInvested (pos_of prices txs s) ==
  totalAmount (pos_of prices txs s) * avgCostBasis (pos_of prices txs s).
Proof.
  intros prices s txs.
  induction txs as [|t txs IH] using rev_ind; intros Hno.
  - split; [apply Qle_refl|reflexivity].
  - assert (Hno' : no_oversell prices s txs).
    { intros pre t' post Heq Hs. apply (Hno pre t' (post ++ [t])); [|exact Hs].
      rewrite Heq, <- app_assoc. reflexivity. }
    destruct (IH Hno') as [Hge Hinv].
    destruct (String.eqb (toUpperCase (tokenSymbol t)) s) eqn:E.
    + apply String.eqb_eq in E.
      destruct (Hno txs t [] eq_refl E) as [Hb Hsl].
      subst s. rewrite pos_of_snoc.
      remember (pos_of prices txs (toUpperCase (tokenSymbol t))) as p.
      unfold apply_tx. destruct (type t) eqn:Ety; cbn.
      * assert (Hpos : 0 < totalAmount p + amount t).
        { apply (Qle_lt_trans _ (totalAmount p + 0)).
          - rewrite Qplus_0_r. exact Hge.
          - rewrite (Qplus_comm (totalAmount p) 0), (Qplus_comm (totalAmount p)).
            apply Qplus_lt_le_compat; [apply Hb; reflexivity|apply Qle_refl]. }
        split; [apply Qlt_le_weak, Hpos|].
        assert (Hg : Qgt0b (totalAmount p + amount t) = true)
          by (apply Qgt0b_spec, Hpos).
        rewrite Hg. symmetry. apply Qmult_div_r.
        intros H0. rewrite H0 in Hpos. apply (Qlt_irrefl 0), Hpos.
      * specialize (Hsl eq_refl).
        split.
        -- apply (Qplus_le_l _ _ (amount t)).
           setoid_replace (totalAmount p - amount t + amount t)
             with (totalAmount p) by ring.
           setoid_replace (0 + amount t) with (amount t) by ring. exact Hsl.
        -- rewrite Hinv. ring.
    + apply String.eqb_neq in E.
      rewrite pos_of_snoc_other by (intros H; apply E; symmetry; exact H).
      split; assumption.
Qed.

Lemma invested_is_held_times_avg_witness :
  no_oversell [] "BTC" scenarioB /\
  totalInvested (pos_of [] scenarioB "BTC") ==
  totalAmount (pos_of [] scenarioB "BTC") * avgCostBasis (pos_of [] scenarioB "BTC").
Proof.
  assert (Hno : no_oversell [] "BTC" scenarioB).
  { intros pre t post Heq _.
    destruct pre as [|a [|b [|c pre]]]; simpl in Heq; inversion Heq; subst;
      try (destruct pre; discriminate);
      split; intros Hty; try discriminate Hty;
      vm_compute; first [reflexivity | intros Hc; discriminate Hc]. }
  split; [exact Hno|exact (proj2 (invested_is_held_times_avg [] "BTC" scenarioB Hno))].
Defined.
